(** * voice-type: push-to-talk session orchestration

    A shallow embedding of the session core of [voice-type.py] and the
    properties of its specification.

    The repository carries two variants of the script:
    - [src/tools/voice-type/voice-type.py], called [Tools] below: the
      microphone stream is opened once in [Recorder.__init__], a separate
      preview model feeds the streaming loop, and [_wrap_preview] shows the
      last two wrapped lines;
    - [src/voice-type/voice-type.py], called [Legacy] below: [Recorder.start]
      opens a stream and [Recorder.stop] closes it, the streaming loop calls
      [transcribe], and [_wrap_preview] keeps the first two wrapped lines.
    [hotkey_worker], [_finish], [transcribe] and [StreamingTranscriber.start],
    [stop] and [last_preview] are the same text in both.  Definitions take a
    [variant] where the two sources differ. *)

From stdpp Require Import base numbers list.
From Stdlib Require Import QArith.

Local Open Scope nat_scope.

Inductive variant := Tools | Legacy.

(** ** Python strings

    A Python [str] is a sequence of Unicode code points; [len] counts code
    points, so a string is a list of code points here. *)

Definition char := N.
Definition str := list char.

Definition SPACE : char := 32%N.
Definition NEWLINE : char := 10%N.
Definition ELLIPSIS : char := 8230%N.   (* U+2026, the "…" of the source *)

(** The characters [str.split()], [str.strip()], [str.lstrip()] and
    [str.rstrip()] treat as whitespace when called without argument. *)
Definition isspace (c : char) : bool :=
  ((9 <=? c) && (c <=? 13) || (28 <=? c) && (c <=? 32)
   || (c =? 133) || (c =? 160) || (c =? 5760)
   || (8192 <=? c) && (c <=? 8202)
   || (c =? 8232) || (c =? 8233) || (c =? 8239) || (c =? 8287)
   || (c =? 12288))%N.

(** Truthiness of a string or list: [if x:] holds when [x] is not empty. *)
Definition truthy {A} (l : list A) : bool :=
  match l with [] => false | _ => true end.

Fixpoint lstrip (s : str) : str :=
  match s with
  | [] => []
  | c :: s' => if isspace c then lstrip s' else s
  end.

Definition rstrip (s : str) : str := rev (lstrip (rev s)).

Definition strip (s : str) : str := rstrip (lstrip s).

(** [sep.join(parts)] *)
Fixpoint join (sep : str) (parts : list str) : str :=
  match parts with
  | [] => []
  | [p] => p
  | p :: ps => p ++ sep ++ join sep ps
  end.

(** [s.split()]: the maximal runs of non-whitespace characters, in order.
    [cur] is the run being read, reversed. *)
Fixpoint split_from (cur : str) (s : str) : list str :=
  match s with
  | [] => if truthy cur then [rev cur] else []
  | c :: s' =>
      if isspace c
      then (if truthy cur then rev cur :: split_from [] s' else split_from [] s')
      else split_from (c :: cur) s'
  end.

Definition split (s : str) : list str := split_from [] s.

(** [s.replace("\n", " ")] *)
Definition replace_newlines (s : str) : str :=
  map (fun c => if (c =? NEWLINE)%N then SPACE else c) s.

(** The number of newline characters of a string. *)
Fixpoint newlines (s : str) : nat :=
  match s with
  | [] => 0
  | c :: s' => (if (c =? NEWLINE)%N then 1 else 0) + newlines s'
  end.

(** A string without newline character. *)
Definition clean (s : str) : Prop := newlines s = 0.


(** ** [_wrap_preview] *)

Definition _MAX_PREVIEW_CHARS (v : variant) : nat :=
  match v with Tools => 58 | Legacy => 55 end.

Module ToolsWrap.

(** One iteration of [for w in words] on the pair [(lines, current)]. *)
Definition wrap_word (st : list str * str) (w : str) : list str * str :=
  let '(lines, current) := st in
  if truthy current
     && (_MAX_PREVIEW_CHARS Tools <? length current + 1 + length w)
  then (lines ++ [current], w)
  else (lines, lstrip (current ++ [SPACE] ++ w)).

Definition wrapped_lines (text : str) : list str :=
  let '(lines, current) := fold_left wrap_word (split text) ([], []) in
  if truthy current then lines ++ [current] else lines.

Definition _wrap_preview (text : str) : str :=
  if negb (truthy text) then [] else
  let lines := wrapped_lines text in
  if negb (truthy lines) then [] else
  let visible := drop (length lines - 2) lines in      (* lines[-2:] *)
  let prefix := if 2 <? length lines then [ELLIPSIS] else [] in
  prefix ++ join [NEWLINE] visible.

End ToolsWrap.

Module LegacyWrap.

(** The [for] loop with its [break]: returns [(lines, current)] as they
    are when the loop is left. *)
Fixpoint wrap_loop (words : list str) (lines : list str) (current : str)
  : list str * str :=
  match words with
  | [] => (lines, current)
  | w :: ws =>
      if truthy current
         && (_MAX_PREVIEW_CHARS Legacy <? length current + 1 + length w)
      then
        let lines' := lines ++ [current] in
        if length lines' =? 2 then (lines', w)          (* break *)
        else wrap_loop ws lines' w
      else wrap_loop ws lines (lstrip (current ++ [SPACE] ++ w))
  end.

Definition wrapped_lines (words : list str) : list str :=
  let '(lines, current) := wrap_loop words [] [] in
  if truthy current && (length lines <? 2) then lines ++ [current] else lines.

Definition _wrap_preview (text : str) : str :=
  if negb (truthy text) then [] else
  let words := split text in
  let result := join [NEWLINE] (wrapped_lines words) in
  if length (replace_newlines result) <? length (join [SPACE] words)
  then rstrip result ++ [ELLIPSIS]
  else result.

End LegacyWrap.

Definition _wrap_preview (v : variant) (text : str) : str :=
  match v with
  | Tools => ToolsWrap._wrap_preview text
  | Legacy => LegacyWrap._wrap_preview text
  end.

(** ** Audio data

    Samples are float32 values; the modelled code only copies and counts
    them, so a sample is a rational here.  A [frame] is one block handed to
    the stream callback (one channel), [audio] a flattened array. *)

Definition sample := Q.
Definition frame := list sample.
Definition audio := list sample.

Definition SAMPLE_RATE : Z := 16000.

(** [duration < 0.3] for [duration = len(audio) / SAMPLE_RATE], and
    [len(audio) >= SAMPLE_RATE * STREAM_MIN_AUDIO] with
    [STREAM_MIN_AUDIO = 0.8], as comparisons of exact rationals cleared of
    their denominators (the float comparisons of the source agree with them
    on every integer length: the thresholds are 4800 and 12800 samples). *)
Definition too_short_to_transcribe (a : audio) : bool :=
  (10 * Z.of_nat (length a) <? 3 * SAMPLE_RATE)%Z.

Definition enough_for_preview (a : audio) : bool :=
  (SAMPLE_RATE * 8 <=? 10 * Z.of_nat (length a))%Z.

(** ** [class Recorder] *)

Module Recorder.

(** [_stream] names the [sd.InputStream] object the recorder holds by its
    creation number.  [sd_created], [sd_running] and [sd_in_callback] are
    the state of the sounddevice library: how many input streams were
    created, which of them are started and not yet stopped, and which
    streams are inside a call of [_callback] that has not reached its
    [append] yet, each with the block it was called with.  [_recording]
    exists in [Tools] only; [Legacy] never reads or writes it. *)
Record t := mk {
  _frames : list frame;
  _recording : bool;
  _stream : option nat;
  sd_created : nat;
  sd_running : list nat;
  sd_in_callback : list (nat * frame);
}.

(** [__init__] *)
Definition init (v : variant) : t :=
  match v with
  | Tools => mk [] false (Some 0) 1 [0] []
  | Legacy => mk [] false None 0 [] []
  end.

Definition start (v : variant) (r : t) : t :=
  match v with
  | Tools =>
      mk [] true (_stream r) (sd_created r) (sd_running r) (sd_in_callback r)
  | Legacy =>
      mk [] (_recording r) (Some (sd_created r)) (S (sd_created r))
         (sd_running r ++ [sd_created r]) (sd_in_callback r)
  end.

(** [np.concatenate(self._frames, axis=0).flatten()], or the empty array
    when there is no frame. *)
Definition snapshot (r : t) : audio :=
  if negb (truthy (_frames r)) then [] else concat (_frames r).

Definition peek (r : t) : audio := snapshot r.

(** Stream [h] is started and not stopped. *)
Definition is_running (r : t) (h : nat) : bool :=
  existsb (Nat.eqb h) (sd_running r).

(** The block of the call of [_callback] stream [h] is inside, if any. *)
Fixpoint block_of (h : nat) (l : list (nat * frame)) : option frame :=
  match l with
  | [] => None
  | (h', b) :: l' => if h =? h' then Some b else block_of h l'
  end.

Fixpoint returned (h : nat) (l : list (nat * frame)) : list (nat * frame) :=
  match l with
  | [] => []
  | (h', b) :: l' => if h =? h' then returned h l' else (h', b) :: returned h l'
  end.

(** [_callback], first part: stream [h] calls it with a block [indata];
    [if status: ...], and in [Tools] the test [if self._recording:].  No
    lock is taken.  [None]: the stream does not run, or its previous call
    has not returned (a stream calls its callback from one thread). *)
Definition _callback_enter (v : variant) (r : t) (h : nat) (indata : frame)
  : option t :=
  if negb (is_running r h) then None else
  match block_of h (sd_in_callback r) with
  | Some _ => None
  | None =>
      let entered :=
        mk (_frames r) (_recording r) (_stream r) (sd_created r)
           (sd_running r) (sd_in_callback r ++ [(h, indata)]) in
      match v with
      | Tools => if _recording r then Some entered else Some r
      | Legacy => Some entered
      end
  end.

(** [_callback], second part: [self._frames.append(indata.copy())], on the
    list [_frames] is bound to at that moment. *)
Definition _callback_append (r : t) (h : nat) : option t :=
  match block_of h (sd_in_callback r) with
  | Some indata =>
      Some (mk (_frames r ++ [indata]) (_recording r) (_stream r)
               (sd_created r) (sd_running r) (returned h (sd_in_callback r)))
  | None => None
  end.

(** In [Legacy], [self._stream.stop()] returns once the callback of the
    stream has returned: a call in flight does its [append] meanwhile (it
    needs no lock), before the frames are concatenated. *)
Definition stop (v : variant) (r : t) : t * audio :=
  match v with
  | Tools =>
      (mk (_frames r) false (_stream r) (sd_created r) (sd_running r)
          (sd_in_callback r),
       snapshot r)
  | Legacy =>
      match _stream r with
      | Some h =>
          let r1 := default r (_callback_append r h) in
          let r2 :=
            mk (_frames r1) (_recording r1) None (sd_created r1)
               (filter (fun h' => h' <> h) (sd_running r1))
               (sd_in_callback r1) in
          (r2, snapshot r2)
      | None => (r, snapshot r)
      end
  end.

(** Calls on a recorder, for sequences of them. *)
Inductive call :=
| Start
| Stop
| CallbackEnter (h : nat) (indata : frame)
| CallbackAppend (h : nat).

Definition apply (v : variant) (r : t) (c : call) : option t :=
  match c with
  | Start => Some (start v r)
  | Stop => Some (fst (stop v r))
  | CallbackEnter h indata => _callback_enter v r h indata
  | CallbackAppend h => _callback_append r h
  end.

Fixpoint run (v : variant) (cs : list call) (r : t) : option t :=
  match cs with
  | [] => Some r
  | c :: cs' =>
      match apply v r c with
      | Some r' => run v cs' r'
      | None => None
      end
  end.

(** The blocks the callback was called with in a call sequence. *)
Fixpoint delivered (cs : list call) : list frame :=
  match cs with
  | [] => []
  | CallbackEnter _ indata :: cs' => indata :: delivered cs'
  | _ :: cs' => delivered cs'
  end.


End Recorder.

(** ** The transcription engine and [transcribe]

    The engine is outside the code: a call of [model.transcribe] (with the
    lazy evaluation of its segments) either raises or yields the texts of
    its segments. *)

Inductive outcome := Raises | Segments (texts : list str).

(** [" ".join(seg.text.strip() for seg in segments).strip()] *)
Definition segments_text (texts : list str) : str :=
  strip (join [SPACE] (map strip texts)).

(** [transcribe(audio)] against an engine [model]; [None] when the call
    raises. *)
Definition transcribe (model : audio -> outcome) (a : audio) : option str :=
  if too_short_to_transcribe a then Some []
  else match model a with
       | Raises => None
       | Segments texts => Some (segments_text texts)
       end.

(** ** Commands, collaborators and the history of their calls *)

Inductive UICommand :=
| ShowRecording (preview : str)      (* ("rec", preview) *)
| ShowProcessing (preview : str)     (* ("processing", preview) *)
| Hide                               (* ("hide", "") *)
| Quit.                              (* ("quit", "") *)

Inductive tray_state := Idle | Recording | Processing | Disabled.

Inductive model_kind := FinalModel | PreviewModel.

Inductive actor := HotkeyThread | Worker (tid : nat) | TrayThread.

(** What a thread does to the world outside the session state: a command
    put on [Overlay._cmd_queue], a call of [TrayIcon.set_state], a call of
    an engine, a call of [paste_text], and the delivery of text inside
    [paste_text] ([_send_text_input] in [Tools], clipboard and Ctrl+V in
    [Legacy]). *)
Inductive action :=
| Put (c : UICommand)
| SetState (st : tray_state)
| ModelCall (k : model_kind) (a : audio)
| PasteText (text : str)
| SendText (text : str).

(** ** Threads *)

(** [StreamingTranscriber._loop], by the statement about to run. *)
Inductive loop_pc :=
| LSleep0                       (* time.sleep(STREAM_INTERVAL), before the loop *)
| LWhile                        (* while self._active: *)
| LGetModel                     (* model = get_stream_model()            [Tools] *)
| LPeek                         (* audio = self._recorder.peek(); if len(audio) >= ... *)
| LPre (a : audio)              (* if not self._active: break *)
| LCall (a : audio)             (* the engine call, in flight *)
| LPost (text : str)            (* if not self._active: break *)
| LStore (text : str)           (* self._last_text = text *)
| LPublish (text : str)         (* self._overlay.show_rec(_wrap_preview(text)) *)
| LSleep                        (* time.sleep(STREAM_INTERVAL), end of an iteration *)
| LDone                         (* the loop was left *)
| LRaised.                      (* the engine raised: the thread died *)

(** [_finish], by the statement about to run. *)
Inductive finish_pc :=
| F1 (a : audio) (preview : str)   (* overlay.show_processing(preview) *)
| F2 (a : audio)                   (* tray.set_state("processing") *)
| F3 (a : audio)                   (* try: text = transcribe(audio) *)
| FCall (a : audio)                (* the engine call inside transcribe, in flight *)
| F4 (text : str)                  (* overlay.hide() *)
| F5 (text : str)                  (* tray.set_state("idle") *)
| F6 (text : str)                  (* if text: paste_text(text) *)
| FDone.

Inductive thread := TLoop (pc : loop_pc) | TFinish (pc : finish_pc).

(** [hotkey_worker], by the statement about to run. *)
Inductive hotkey_pc :=
| HPoll (was_down : bool)       (* is_down = _key_is_down(HOTKEY_VK) *)
| HDown1                        (* tray.set_state("recording") *)
| HDown2                        (* overlay.show_rec() *)
| HDown3                        (* recorder.start() *)
| HDown4                        (* streamer.start() *)
| HUp1                          (* audio = recorder.stop() *)
| HUp2 (a : audio)              (* streamer.stop() *)
| HUp3 (a : audio).             (* def _finish(..., preview=streamer.last_preview); Thread(target=_finish).start() *)

(** ** The state of the program *)

Record state := mkState {
  recorder : Recorder.t;
  _active : bool;                       (* StreamingTranscriber._active *)
  _last_text : str;                     (* StreamingTranscriber._last_text *)
  stream_model_loaded : bool;           (* _stream_model is not None *)
  enabled : bool;                       (* TrayIcon.enabled *)
  icon : option tray_state;             (* what TrayIcon._icon shows; None: no icon yet *)
  history : list (actor * action);
  hotkey : hotkey_pc;
  threads : list thread;                (* the loop and finish threads, by creation *)
}.

Definition with_recorder (s : state) (r : Recorder.t) : state :=
  mkState r (_active s) (_last_text s) (stream_model_loaded s) (enabled s)
          (icon s) (history s) (hotkey s) (threads s).
Definition with_active (s : state) (b : bool) : state :=
  mkState (recorder s) b (_last_text s) (stream_model_loaded s) (enabled s)
          (icon s) (history s) (hotkey s) (threads s).
Definition with_last_text (s : state) (t : str) : state :=
  mkState (recorder s) (_active s) t (stream_model_loaded s) (enabled s)
          (icon s) (history s) (hotkey s) (threads s).
Definition with_stream_model (s : state) (b : bool) : state :=
  mkState (recorder s) (_active s) (_last_text s) b (enabled s)
          (icon s) (history s) (hotkey s) (threads s).
Definition with_enabled (s : state) (b : bool) : state :=
  mkState (recorder s) (_active s) (_last_text s) (stream_model_loaded s) b
          (icon s) (history s) (hotkey s) (threads s).
Definition with_icon (s : state) (i : option tray_state) : state :=
  mkState (recorder s) (_active s) (_last_text s) (stream_model_loaded s)
          (enabled s) i (history s) (hotkey s) (threads s).
Definition with_history (s : state) (h : list (actor * action)) : state :=
  mkState (recorder s) (_active s) (_last_text s) (stream_model_loaded s)
          (enabled s) (icon s) h (hotkey s) (threads s).
Definition with_hotkey (s : state) (pc : hotkey_pc) : state :=
  mkState (recorder s) (_active s) (_last_text s) (stream_model_loaded s)
          (enabled s) (icon s) (history s) pc (threads s).
Definition with_threads (s : state) (ts : list thread) : state :=
  mkState (recorder s) (_active s) (_last_text s) (stream_model_loaded s)
          (enabled s) (icon s) (history s) (hotkey s) ts.

Definition record (s : state) (who : actor) (a : action) : state :=
  with_history s (history s ++ [(who, a)]).

(** The state when [hotkey_worker] reaches its loop: [run] has built the
    recorder, the overlay, the streamer and the tray icon. *)
Definition init (v : variant) : state :=
  mkState (Recorder.init v) false [] false true (Some Idle) []
          (HPoll false) [].

(** ** [class Overlay] and [class TrayIcon], the thread-safe part *)

(** [show_rec], [show_processing], [hide]: a [put] on the command queue. *)
Definition put (s : state) (who : actor) (c : UICommand) : state :=
  record s who (Put c).

(** The commands on [Overlay._cmd_queue], in the order they were put. *)
Fixpoint commands (h : list (actor * action)) : list UICommand :=
  match h with
  | [] => []
  | (_, Put c) :: h' => c :: commands h'
  | _ :: h' => commands h'
  end.

Definition set_state (s : state) (who : actor) (st : tray_state) : state :=
  let s := record s who (SetState st) in
  match icon s with
  | None => s
  | Some _ =>
      let effective := if negb (enabled s) then Disabled else st in
      with_icon s (Some effective)
  end.

(** [_toggle_enabled], on the tray's thread. *)
Definition _toggle_enabled (s : state) : state :=
  set_state (with_enabled s (negb (enabled s))) TrayThread Idle.

(** ** [class StreamingTranscriber] *)

Module StreamingTranscriber.

(** [start]: the new loop thread is the last of [threads]. *)
Definition start (s : state) : state :=
  with_threads (with_last_text (with_active s true) [])
               (threads s ++ [TLoop LSleep0]).

Definition stop (s : state) : state := with_active s false.

Definition last_preview (v : variant) (s : state) : str :=
  _wrap_preview v (_last_text s).

(** One statement of [_loop] in thread [tid]; [None] when the thread
    cannot move on its own (it waits for the engine, or has ended). *)
Definition _loop (v : variant) (tid : nat) (pc : loop_pc) (s : state)
  : option (loop_pc * state) :=
  match pc with
  | LSleep0 => Some (LWhile, s)
  | LWhile =>
      if _active s
      then Some (match v with Tools => LGetModel | Legacy => LPeek end, s)
      else Some (LDone, s)
  | LGetModel =>
      if stream_model_loaded s then Some (LPeek, s) else Some (LSleep, s)
  | LPeek =>
      let a := Recorder.peek (recorder s) in
      if enough_for_preview a then Some (LPre a, s) else Some (LSleep, s)
  | LPre a =>
      if negb (_active s) then Some (LDone, s) else
      match v with
      | Tools => Some (LCall a, record s (Worker tid) (ModelCall PreviewModel a))
      | Legacy =>
          (* text = transcribe(audio, verbose=False) *)
          if too_short_to_transcribe a then Some (LPost [], s)
          else Some (LCall a, record s (Worker tid) (ModelCall FinalModel a))
      end
  | LCall _ => None
  | LPost text =>
      if negb (_active s) then Some (LDone, s) else Some (LStore text, s)
  | LStore text => Some (LPublish text, with_last_text s text)
  | LPublish text =>
      Some (LSleep, put s (Worker tid) (ShowRecording (_wrap_preview v text)))
  | LSleep => Some (LWhile, s)
  | LDone => None
  | LRaised => None
  end.

(** The engine call of thread [tid] ends with [o]. *)
Definition _loop_return (pc : loop_pc) (o : outcome) : option loop_pc :=
  match pc with
  | LCall _ =>
      match o with
      | Raises => Some LRaised
      | Segments texts => Some (LPost (segments_text texts))
      end
  | _ => None
  end.

End StreamingTranscriber.

(** ** [paste_text] *)

Definition paste_text (s : state) (who : actor) (text : str) : state :=
  let s := record s who (PasteText text) in
  if negb (truthy (strip text)) then s
  else record s who (SendText text).

(** ** [_finish], the finalize task *)

Definition _finish (tid : nat) (pc : finish_pc) (s : state)
  : option (finish_pc * state) :=
  match pc with
  | F1 a preview => Some (F2 a, put s (Worker tid) (ShowProcessing preview))
  | F2 a => Some (F3 a, set_state s (Worker tid) Processing)
  | F3 a =>
      if too_short_to_transcribe a then Some (F4 [], s)
      else Some (FCall a, record s (Worker tid) (ModelCall FinalModel a))
  | FCall _ => None
  | F4 text => Some (F5 text, put s (Worker tid) Hide)
  | F5 text => Some (F6 text, set_state s (Worker tid) Idle)
  | F6 text =>
      if truthy text then Some (FDone, paste_text s (Worker tid) text)
      else Some (FDone, s)
  | FDone => None
  end.

(** The engine call inside [transcribe(audio)] ends with [o]:
    [except Exception] turns a raise into the empty text. *)
Definition _finish_return (pc : finish_pc) (o : outcome) : option finish_pc :=
  match pc with
  | FCall a =>
      match transcribe (fun _ => o) a with
      | Some text => Some (F4 text)
      | None => Some (F4 [])
      end
  | _ => None
  end.

(** ** [hotkey_worker] *)

(** One poll of the key: the edge detection and the test of
    [tray.enabled]. *)
Definition hotkey_poll (s : state) (is_down : bool) : option state :=
  match hotkey s with
  | HPoll was_down =>
      if is_down && negb was_down then
        if negb (enabled s) then Some (with_hotkey s (HPoll is_down))
        else Some (with_hotkey s HDown1)
      else if negb is_down && was_down then
        if enabled s then Some (with_hotkey s HUp1)
        else Some (with_hotkey s (HPoll is_down))
      else Some (with_hotkey s (HPoll is_down))
  | _ => None
  end.

(** One statement of the handler of an edge. *)
Definition hotkey_step (v : variant) (s : state) : option state :=
  match hotkey s with
  | HPoll _ => None
  | HDown1 => Some (with_hotkey (set_state s HotkeyThread Recording) HDown2)
  | HDown2 => Some (with_hotkey (put s HotkeyThread (ShowRecording [])) HDown3)
  | HDown3 =>
      Some (with_hotkey (with_recorder s (Recorder.start v (recorder s))) HDown4)
  | HDown4 => Some (with_hotkey (StreamingTranscriber.start s) (HPoll true))
  | HUp1 =>
      let '(r, a) := Recorder.stop v (recorder s) in
      Some (with_hotkey (with_recorder s r) (HUp2 a))
  | HUp2 a => Some (with_hotkey (StreamingTranscriber.stop s) (HUp3 a))
  | HUp3 a =>
      let preview := StreamingTranscriber.last_preview v s in
      Some (with_hotkey
              (with_threads s (threads s ++ [TFinish (F1 a preview)]))
              (HPoll false))
  end.

(** ** Executions

    The threads interleave at the grain of the statements above.  An event
    names the thread that runs its next statement, with what comes from
    outside: the level of the key, the outcome of an engine call, a block
    of audio handed to the stream callback ([EAudio]: the callback is
    entered; [EAudioAppend]: it appends), a click on "Enabled", the preview
    model loaded or dropped. *)

Inductive event :=
| EKeyPoll (is_down : bool)
| EHotkey
| EThread (tid : nat)
| EModelReturn (tid : nat) (o : outcome)
| EAudio (h : nat) (indata : frame)
| EAudioAppend (h : nat)
| EToggleEnabled
| EStreamModel (loaded : bool).

Definition thread_step (v : variant) (tid : nat) (s : state) : option state :=
  match threads s !! tid with
  | Some (TLoop pc) =>
      match StreamingTranscriber._loop v tid pc s with
      | Some (pc', s') => Some (with_threads s' (<[tid := TLoop pc']> (threads s')))
      | None => None
      end
  | Some (TFinish pc) =>
      match _finish tid pc s with
      | Some (pc', s') => Some (with_threads s' (<[tid := TFinish pc']> (threads s')))
      | None => None
      end
  | None => None
  end.

Definition thread_return (tid : nat) (o : outcome) (s : state) : option state :=
  match threads s !! tid with
  | Some (TLoop pc) =>
      match StreamingTranscriber._loop_return pc o with
      | Some pc' => Some (with_threads s (<[tid := TLoop pc']> (threads s)))
      | None => None
      end
  | Some (TFinish pc) =>
      match _finish_return pc o with
      | Some pc' => Some (with_threads s (<[tid := TFinish pc']> (threads s)))
      | None => None
      end
  | None => None
  end.

(** [None]: the event cannot happen in this state. *)
Definition step (v : variant) (s : state) (e : event) : option state :=
  match e with
  | EKeyPoll is_down => hotkey_poll s is_down
  | EHotkey => hotkey_step v s
  | EThread tid => thread_step v tid s
  | EModelReturn tid o => thread_return tid o s
  | EAudio h indata =>
      match Recorder._callback_enter v (recorder s) h indata with
      | Some r => Some (with_recorder s r)
      | None => None
      end
  | EAudioAppend h =>
      match Recorder._callback_append (recorder s) h with
      | Some r => Some (with_recorder s r)
      | None => None
      end
  | EToggleEnabled => Some (_toggle_enabled s)
  | EStreamModel loaded =>
      match v with
      | Tools => Some (with_stream_model s loaded)
      | Legacy => None
      end
  end.

Fixpoint run (v : variant) (es : list event) (s : state) : option state :=
  match es with
  | [] => Some s
  | e :: es' =>
      match step v s e with
      | Some s' => run v es' s'
      | None => None
      end
  end.


(** ** Statements about the recorder's buffer *)

(** C7 as stated, for its part on [peek()] after a [start()]: whatever the
    calls before and after a [start()], [peek()] returns only blocks the
    callback was called with after it, in their order. *)
Definition peek_only_after_start (v : variant) : Prop :=
  forall (before after : list Recorder.call) (r : Recorder.t),
    Recorder.run v (before ++ Recorder.Start :: after) (Recorder.init v) = Some r ->
    exists kept : list frame,
      Recorder.peek r = concat kept
      /\ sublist kept (Recorder.delivered after).


(** ** Statements about the recorder's stream *)

(** Two recorder states hold the same stream, and the library runs the
    same streams. *)
Definition same_stream (r r' : Recorder.t) : Prop :=
  Recorder._stream r' = Recorder._stream r
  /\ Recorder.sd_created r' = Recorder.sd_created r
  /\ Recorder.sd_running r' = Recorder.sd_running r.

(** The stream is opened once, by the constructor; [start] and [stop] leave
    it alone; every state the program reaches still holds it, running. *)
Definition stream_kept_open (v : variant) : Prop :=
  (Recorder._stream (Recorder.init v) = Some 0
   /\ Recorder.sd_created (Recorder.init v) = 1
   /\ Recorder.sd_running (Recorder.init v) = [0])
  /\ (forall r, same_stream r (Recorder.start v r))
  /\ (forall r, same_stream r (fst (Recorder.stop v r)))
  /\ (forall es s, run v es (init v) = Some s ->
        same_stream (Recorder.init v) (recorder s)).

(** ** Statements about the hotkey edges *)

(** The capture buffer is armed, that is, blocks the microphone delivers
    go to [_frames]: [_recording] is set in [Tools]; some stream runs in
    [Legacy], where every callback appends. *)
Definition armed (v : variant) (r : Recorder.t) : bool :=
  match v with
  | Tools => Recorder._recording r
  | Legacy => truthy (Recorder.sd_running r)
  end.

(** The events of the hotkey thread on a down-edge and on an up-edge whose
    handler is taken. *)
Definition key_down : list event := [EKeyPoll true; EHotkey; EHotkey; EHotkey; EHotkey].
Definition key_up : list event := [EKeyPoll false; EHotkey; EHotkey; EHotkey].

(** From [s], the up-edge disarms the buffer, stops the preview loop and
    spawns the finalize task. *)
Definition up_edge_finalizes (v : variant) (s : state) : Prop :=
  exists s', run v key_up s = Some s'
    /\ armed v (recorder s') = false
    /\ _active s' = false
    /\ (exists a preview, threads s' = threads s ++ [TFinish (F1 a preview)])
    /\ hotkey s' = HPoll false.

(** C3 as stated: the flag plays no part on the up-edge, so a session in
    Recording (the key is held) is finalized whatever the flag. *)
Definition disabling_never_strands (v : variant) : Prop :=
  forall s, hotkey s = HPoll true -> up_edge_finalizes v s.

(** A session is started, then "Enabled" is clicked off while the key is
    held. *)
Definition disabled_while_recording : list event := key_down ++ [EToggleEnabled].

(** C6 as stated: the preview is read before [streamer.stop()] is called,
    so whatever happens between that call and the spawn of the finalize
    task, the task carries the preview of the state [stop()] was called
    in. *)
Definition preview_read_before_stop (v : variant) : Prop :=
  forall s a e s',
    hotkey s = HUp2 a ->
    run v [EHotkey; e; EHotkey] s = Some s' ->
    last (threads s') = Some (TFinish (F1 a (StreamingTranscriber.last_preview v s))).

(** Sample data for executions: a text, and [n] samples of silence. *)
Definition text_hi : str := [104; 105]%N.
Definition silence (n : N) : frame := repeat 0%Q (N.to_nat n).

(** What the preview model needs before the loop calls it: in [Tools] the
    model is loaded. *)
Definition preview_model_ready (v : variant) : list event :=
  match v with Tools => [EStreamModel true] | Legacy => [] end.

(** The steps of loop thread [tid] from its start to the engine call. *)
Definition loop_until_call (v : variant) (tid : nat) : list event :=
  match v with
  | Tools => repeat (EThread tid) 5
  | Legacy => repeat (EThread tid) 4
  end.

(** The stream of the first session (stream 0 in both variants) hands a
    block to the callback, which appends it. *)
Definition mic (indata : frame) : list event :=
  [EAudio 0 indata; EAudioAppend 0].

(** A session with 0.8 s of audio whose preview loop (thread 0) has its
    engine call in flight. *)
Definition preview_in_flight (v : variant) : list event :=
  key_down ++ preview_model_ready v ++ mic (silence 12800)
  ++ loop_until_call v 0.

(** ... the call returns "hi", the loop passes its second check, and the
    key goes up: the handler has called [recorder.stop()] and is about to
    call [streamer.stop()]. *)
Definition stop_races_store (v : variant) : list event :=
  preview_in_flight v
  ++ [EModelReturn 0 (Segments [text_hi]); EThread 0; EKeyPoll false; EHotkey].

(** The state after a down-edge from the initial state: the key is held
    and a session records. *)
Definition held_state (v : variant) : state :=
  default (init v) (run v key_down (init v)).

(** The same with "Enabled" clicked off meanwhile. *)
Definition held_disabled_state (v : variant) : state :=
  default (init v) (run v disabled_while_recording (init v)).

(** ... and the key is released. *)
Definition release_while_disabled : list event :=
  disabled_while_recording ++ [EKeyPoll false].

Definition stranded_state (v : variant) : state :=
  default (init v) (run v release_while_disabled (init v)).

(** The steps of loop thread [tid] from the head of its [while] to the
    engine call, and from the return of the call (with one segment of text
    [text]) to the head of the [while] again. *)
Definition loop_to_call (v : variant) (tid : nat) : list event :=
  match v with
  | Tools => repeat (EThread tid) 4
  | Legacy => repeat (EThread tid) 3
  end.

Definition loop_publishes (tid : nat) (text : str) : list event :=
  [EModelReturn tid (Segments [text]); EThread tid; EThread tid; EThread tid;
   EThread tid].

(** 0.8 s of audio arrive and the preview loop (thread 0) makes its first
    pass over them, which yields "hi". *)
Definition speech_after_release (v : variant) : list event :=
  preview_model_ready v ++ mic (silence 12800)
  ++ [EThread 0] ++ loop_to_call v 0 ++ loop_publishes 0 text_hi.

Definition stranded_later (v : variant) : state :=
  default (init v) (run v (speech_after_release v) (stranded_state v)).

(** The state [stop_races_store] leads to, and what follows when the loop
    stores its text between [streamer.stop()] and the construction of the
    finalize task. *)
Definition race_state (v : variant) : state :=
  default (init v) (run v (stop_races_store v) (init v)).

Definition race_result (v : variant) : option state :=
  run v [EHotkey; EThread 0; EHotkey] (race_state v).


(** ** A key released and pressed again while a preview call is in flight *)











(** ** The finalize task among the other threads *)









(** ** A session with little audio *)
























(** * Properties *)

(** ** Strings *)

Lemma newlines_app (a b : str) : newlines (a ++ b) = newlines a + newlines b.
Proof. induction a as [|c a IH]; simpl; [done | rewrite IH; lia]. Qed.

Lemma newlines_rev (s : str) : newlines (rev s) = newlines s.
Proof.
  induction s as [|c s IH]; simpl; [done|].
  rewrite newlines_app, IH. simpl. lia.
Qed.

Lemma newlines_lstrip (s : str) : newlines (lstrip s) <= newlines s.
Proof.
  induction s as [|c s IH]; simpl; [done|].
  destruct (isspace c); simpl; lia.
Qed.

Lemma newlines_rstrip (s : str) : newlines (rstrip s) <= newlines s.
Proof.
  unfold rstrip. rewrite newlines_rev.
  etrans; [apply newlines_lstrip | by rewrite newlines_rev].
Qed.

Lemma newlines_strip (s : str) : newlines (strip s) <= newlines s.
Proof.
  unfold strip. etrans; [apply newlines_rstrip | apply newlines_lstrip].
Qed.

Lemma isspace_NEWLINE : isspace NEWLINE = true.
Proof. reflexivity. Qed.

Lemma nonspace_clean (s : str) :
  Forall (fun c => isspace c = false) s -> clean s.
Proof.
  unfold clean. induction 1 as [|c s Hc _ IH]; simpl; [done|].
  destruct (N.eqb_spec c NEWLINE) as [->|_]; [|done].
  by rewrite isspace_NEWLINE in Hc.
Qed.

Lemma split_from_nonspace (s cur : str) :
  Forall (fun c => isspace c = false) cur ->
  Forall (Forall (fun c => isspace c = false)) (split_from cur s).
Proof.
  revert cur. induction s as [|c s IH]; intros cur Hcur; cbn [split_from].
  - destruct (truthy cur); [|constructor].
    constructor; [|constructor]. by apply Forall_rev.
  - destruct (isspace c) eqn:Hc.
    + destruct (truthy cur); [|by apply IH].
      constructor; [by apply Forall_rev | by apply IH].
    + apply IH. by constructor.
Qed.

Lemma split_clean (s : str) : Forall clean (split s).
Proof.
  eapply Forall_impl; [apply (split_from_nonspace s []); constructor|].
  apply nonspace_clean.
Qed.

Lemma split_spaces (s : str) : forallb isspace s = true -> split s = [].
Proof.
  unfold split. induction s as [|c s IH]; simpl; [done|].
  intros [Hc Hs]%andb_prop. rewrite Hc. simpl. by apply IH.
Qed.

Lemma clean_glue (current w : str) :
  clean current -> clean w -> clean (lstrip (current ++ [SPACE] ++ w)).
Proof.
  unfold clean. intros Hc Hw.
  pose proof (newlines_lstrip (current ++ [SPACE] ++ w)) as H.
  rewrite !newlines_app, Hc, Hw in H. simpl in H |- *. lia.
Qed.

Lemma newlines_join (ls : list str) :
  Forall clean ls -> newlines (join [NEWLINE] ls) = length ls - 1.
Proof.
  induction 1 as [|l ls Hl Hls IH]; [done|].
  destruct ls as [|l' ls]; [exact Hl|].
  change (join [NEWLINE] (l :: l' :: ls))
    with (l ++ [NEWLINE] ++ join [NEWLINE] (l' :: ls)).
  rewrite !newlines_app, IH, Hl. simpl. lia.
Qed.

(** ** [_wrap_preview] yields at most two lines *)

Lemma tools_wrap_word_clean (words : list str) (lines : list str) (current : str) :
  Forall clean words -> Forall clean lines -> clean current ->
  Forall clean (fst (fold_left ToolsWrap.wrap_word words (lines, current)))
  /\ clean (snd (fold_left ToolsWrap.wrap_word words (lines, current))).
Proof.
  intros Hw. revert lines current.
  induction Hw as [|w words Hw _ IH]; intros lines current Hl Hc; [done|].
  simpl.
  destruct (truthy current && (_ <? _)).
  - apply IH; [|done]. apply Forall_app. split; [done | by constructor].
  - apply IH; [done | by apply clean_glue].
Qed.

Lemma tools_wrapped_lines_clean (text : str) :
  Forall clean (ToolsWrap.wrapped_lines text).
Proof.
  unfold ToolsWrap.wrapped_lines.
  pose proof (tools_wrap_word_clean (split text) [] [] (split_clean text)
                (Forall_nil_2 _) eq_refl) as [Hl Hc].
  destruct (fold_left _ _ _) as [lines current]. simpl in *.
  destruct (truthy current); [|done].
  apply Forall_app. split; [done | by constructor].
Qed.

Lemma tools_wrap_newlines (text : str) :
  newlines (ToolsWrap._wrap_preview text) <= 1.
Proof.
  unfold ToolsWrap._wrap_preview.
  destruct (negb (truthy text)); [simpl; lia|].
  destruct (negb (truthy _)); [simpl; lia|].
  rewrite newlines_app, newlines_join
    by (apply Forall_drop, tools_wrapped_lines_clean).
  rewrite length_drop.
  destruct (2 <? _); simpl; lia.
Qed.

Lemma legacy_wrap_loop_clean (words lines : list str) (current : str) :
  Forall clean words -> Forall clean lines -> clean current ->
  length lines < 2 ->
  Forall clean (fst (LegacyWrap.wrap_loop words lines current))
  /\ clean (snd (LegacyWrap.wrap_loop words lines current))
  /\ length (fst (LegacyWrap.wrap_loop words lines current)) <= 2.
Proof.
  intros Hw. revert lines current.
  induction Hw as [|w words Hw _ IH]; intros lines current Hl Hc Hlen; simpl.
  - repeat split; [done | done | lia].
  - destruct (truthy current && (_ <? _)).
    + assert (Forall clean (lines ++ [current])) as Hl'
        by (apply Forall_app; split; [done | by constructor]).
      rewrite length_app. simpl.
      destruct (Nat.eqb_spec (length lines + 1) 2) as [E|E]; simpl.
      * rewrite length_app. simpl. repeat split; [done | done | lia].
      * apply IH; [done | done |]. rewrite length_app. simpl. lia.
    + apply IH; [done | by apply clean_glue | done].
Qed.

Lemma legacy_wrapped_lines_clean (words : list str) :
  Forall clean words ->
  Forall clean (LegacyWrap.wrapped_lines words)
  /\ length (LegacyWrap.wrapped_lines words) <= 2.
Proof.
  intros Hw. unfold LegacyWrap.wrapped_lines.
  pose proof (legacy_wrap_loop_clean words [] [] Hw (Forall_nil_2 _) eq_refl)
    as (Hl & Hc & Hlen); [simpl; lia|].
  destruct (LegacyWrap.wrap_loop _ _ _) as [lines current]. simpl in *.
  destruct (truthy current); simpl; [|done].
  destruct (Nat.ltb_spec (length lines) 2); [|done].
  split; [apply Forall_app; split; [done | by constructor]|].
  rewrite length_app. simpl. lia.
Qed.

Lemma legacy_wrap_newlines (text : str) :
  newlines (LegacyWrap._wrap_preview text) <= 1.
Proof.
  unfold LegacyWrap._wrap_preview.
  destruct (negb (truthy text)); [simpl; lia|].
  destruct (legacy_wrapped_lines_clean (split text) (split_clean text))
    as [Hl Hlen].
  pose proof (newlines_join _ Hl) as Hj.
  destruct (_ <? _).
  - rewrite newlines_app. simpl.
    pose proof (newlines_rstrip (join [NEWLINE] (LegacyWrap.wrapped_lines (split text)))).
    lia.
  - lia.
Qed.

(** C10. For every input string, [_wrap_preview] returns a string with at
    most one newline character (at most two display lines), and it returns
    the empty string whenever the input has no word, that is, is empty or
    made of whitespace only.  Both variants. *)
Theorem C10_wrap_preview_two_lines (v : variant) (text : str) :
  newlines (_wrap_preview v text) <= 1
  /\ (forallb isspace text = true -> _wrap_preview v text = []).
Proof.
  split.
  - destruct v; [apply tools_wrap_newlines | apply legacy_wrap_newlines].
  - intros Hs%split_spaces.
    destruct v; simpl.
    + unfold ToolsWrap._wrap_preview, ToolsWrap.wrapped_lines.
      rewrite Hs. simpl. by destruct (negb (truthy text)).
    + unfold LegacyWrap._wrap_preview. rewrite Hs. simpl.
      by destruct (negb (truthy text)).
Qed.

(** ** The recorder *)


Lemma recorder_run_app (v : variant) (cs1 cs2 : list Recorder.call) (r : Recorder.t) :
  Recorder.run v (cs1 ++ cs2) r
  = match Recorder.run v cs1 r with
    | Some r' => Recorder.run v cs2 r'
    | None => None
    end.
Proof.
  revert r. induction cs1 as [|c cs1 IH]; intros r; simpl; [done|].
  destruct (Recorder.apply v r c); [apply IH | done].
Qed.












(** C7 at the failing input.  [_callback] takes no lock: in [Tools] it
    passes [if self._recording:] with a block, [stop()] and [start()] run,
    and then it appends; [peek()] returns that block although the callback
    was not called after the last [start()].  In [Legacy] the same happens
    to a stream left running by a [start()] without [stop()].  So the
    claim as stated fails in both variants. *)
Theorem C7_block_in_flight_crosses_start :
  (exists r,
      Recorder.run Tools
        ([Recorder.Start; Recorder.CallbackEnter 0 [1%Q]; Recorder.Stop]
         ++ Recorder.Start :: [Recorder.CallbackAppend 0])
        (Recorder.init Tools) = Some r
      /\ Recorder.peek r = [1%Q]
      /\ Recorder.delivered [Recorder.CallbackAppend 0] = [])
  /\ ~ peek_only_after_start Tools
  /\ ~ peek_only_after_start Legacy.
Proof.
  split; [|split].
  - eexists. split; [reflexivity|]. split; reflexivity.
  - intros H.
    destruct (H [Recorder.Start; Recorder.CallbackEnter 0 [1%Q]; Recorder.Stop]
                [Recorder.CallbackAppend 0] _ eq_refl) as (kept & Hp & Hk).
    simpl in Hk. apply sublist_nil_r in Hk as ->. discriminate.
  - intros H.
    destruct (H [Recorder.Start; Recorder.CallbackEnter 0 [1%Q]]
                [Recorder.CallbackAppend 0] _ eq_refl) as (kept & Hp & Hk).
    simpl in Hk. apply sublist_nil_r in Hk as ->. discriminate.
Qed.

(** ** Steps of the program *)

Ltac step_cases H :=
  unfold step, hotkey_poll, hotkey_step, thread_step, thread_return,
    StreamingTranscriber._loop, StreamingTranscriber._loop_return,
    _finish, _finish_return, transcribe, _toggle_enabled, set_state,
    paste_text, put, record in H;
  repeat (case_match; simplify_eq/=).


Lemma same_stream_refl (r : Recorder.t) : same_stream r r.
Proof. by repeat split. Qed.

Lemma same_stream_trans (r1 r2 r3 : Recorder.t) :
  same_stream r1 r2 -> same_stream r2 r3 -> same_stream r1 r3.
Proof.
  unfold same_stream. intros (?&?&?) (?&?&?). repeat split; congruence.
Qed.

Lemma tools_start_same_stream (r : Recorder.t) :
  same_stream r (Recorder.start Tools r).
Proof. by repeat split. Qed.

Lemma tools_stop_same_stream (r : Recorder.t) :
  same_stream r (fst (Recorder.stop Tools r)).
Proof. by repeat split. Qed.

Lemma tools_callback_same_stream (r r' : Recorder.t) (h : nat) (indata : frame) :
  Recorder._callback_enter Tools r h indata = Some r' -> same_stream r r'.
Proof.
  unfold Recorder._callback_enter. intros H.
  repeat (case_match; simplify_eq/=); by repeat split.
Qed.

Lemma callback_append_same_stream (r r' : Recorder.t) (h : nat) :
  Recorder._callback_append r h = Some r' -> same_stream r r'.
Proof.
  unfold Recorder._callback_append. intros H.
  repeat (case_match; simplify_eq/=); by repeat split.
Qed.

Lemma tools_step_same_stream (s s' : state) (e : event) :
  step Tools s e = Some s' -> same_stream (recorder s) (recorder s').
Proof.
  intros H. destruct e; simpl in H.
  - step_cases H; apply same_stream_refl.
  - step_cases H; try apply same_stream_refl; by repeat split.
  - step_cases H; apply same_stream_refl.
  - step_cases H; apply same_stream_refl.
  - destruct (Recorder._callback_enter Tools (recorder s) h indata) eqn:Hcb; [|done].
    simplify_eq/=. by eapply tools_callback_same_stream.
  - destruct (Recorder._callback_append (recorder s) h) eqn:Hcb; [|done].
    simplify_eq/=. by eapply callback_append_same_stream.
  - step_cases H; apply same_stream_refl.
  - simplify_eq/=. apply same_stream_refl.
Qed.

Lemma tools_run_same_stream (es : list event) (s s' : state) :
  run Tools es s = Some s' -> same_stream (recorder s) (recorder s').
Proof.
  revert s. induction es as [|e es IH]; intros s H; simpl in H.
  - simplify_eq. apply same_stream_refl.
  - destruct (step Tools s e) as [s1|] eqn:Hs; [|done].
    eapply same_stream_trans; [by eapply tools_step_same_stream | by apply IH].
Qed.

(** C4 (as amended).  In [Tools] the microphone stream is opened once, by
    the recorder's constructor, before any session; [start()] and [stop()]
    change only [_recording] and [_frames]; and in every state the program
    reaches the recorder holds that same stream, still running.  In
    [Legacy] every [start()] creates and starts a new stream and every
    [stop()] stops it and drops it. *)
Theorem C4_stream_opened_once :
  stream_kept_open Tools
  /\ (forall r, Recorder._stream (Recorder.start Legacy r) = Some (Recorder.sd_created r)
               /\ Recorder.sd_created (Recorder.start Legacy r) = S (Recorder.sd_created r)
               /\ Recorder.sd_running (Recorder.start Legacy r)
                  = Recorder.sd_running r ++ [Recorder.sd_created r])
  /\ (forall r, Recorder._stream (fst (Recorder.stop Legacy r)) = None
               /\ forall h, Recorder._stream r = Some h ->
                   h ∉ Recorder.sd_running (fst (Recorder.stop Legacy r))).
Proof.
  split; [|split].
  - split; [done|]. split; [intros r; apply tools_start_same_stream|].
    split; [intros r; apply tools_stop_same_stream|].
    intros es s H. apply (tools_run_same_stream es (init Tools) s H).
  - intros r. by repeat split.
  - intros r. simpl. destruct (Recorder._stream r) eqn:E; simpl.
    + split; [done|]. intros h [= <-] Hin.
      apply list_elem_of_filter in Hin as [Hne _]. done.
    + split; [done|]. intros h Hh. done.
Qed.

(** C4, the claim as stated, fails in [Legacy]: the first [start()] opens
    the first stream (none exists after construction). *)
Lemma C4_legacy_opens_per_session : ~ stream_kept_open Legacy.
Proof. intros [[H _] _]. simpl in H. done. Qed.

(** ** The hotkey edges *)

Lemma with_hotkey_id (s : state) : with_hotkey s (hotkey s) = s.
Proof. by destruct s. Qed.

Lemma with_threads_id (s : state) : with_threads s (threads s) = s.
Proof. by destruct s. Qed.

(** C3 at the failing input: key down while enabled, "Enabled" clicked off
    while the key is held, key up.  The up-edge is polled and ignored
    ([if tray.enabled:] guards its handler): the buffer stays armed,
    [_active] stays set, the only thread is the preview loop, no finalize
    task exists and the hotkey thread has no handler step to take.  The
    session goes on after the release: 0.8 s of audio later the buffer
    holds them and the loop has published a preview of them.  So the claim
    as stated fails, in both variants. *)
Theorem C3_disabled_session_stranded (v : variant) :
  run v release_while_disabled (init v) = Some (stranded_state v)
  /\ hotkey (stranded_state v) = HPoll false
  /\ armed v (recorder (stranded_state v)) = true
  /\ _active (stranded_state v) = true
  /\ threads (stranded_state v) = [TLoop LSleep0]
  /\ step v (stranded_state v) EHotkey = None
  /\ run v (speech_after_release v) (stranded_state v) = Some (stranded_later v)
  /\ length (Recorder.peek (recorder (stranded_later v))) = N.to_nat 12800
  /\ commands (history (stranded_later v)) = [ShowRecording []; ShowRecording text_hi]
  /\ ~ disabling_never_strands v.
Proof.
  repeat (split; [destruct v; vm_compute; reflexivity|]).
  intros H.
  assert (hotkey (held_disabled_state v) = HPoll true) as Hk
    by (destruct v; reflexivity).
  destruct (H _ Hk) as (s' & Hrun & _).
  destruct v; vm_compute in Hrun; discriminate.
Qed.

Lemma C4_witness :
  same_stream (Recorder.init Tools) (recorder (held_state Tools)).
Proof.
  apply (proj2 (proj2 (proj2 (proj1 C4_stream_opened_once))) key_down).
  reflexivity.
Defined.

Lemma C10_witness :
  newlines (_wrap_preview Tools text_hi) <= 1
  /\ _wrap_preview Legacy [SPACE; NEWLINE] = [].
Proof.
  split.
  - apply (C10_wrap_preview_two_lines Tools text_hi).
  - apply (C10_wrap_preview_two_lines Legacy [SPACE; NEWLINE]). reflexivity.
Defined.

(** ** The preview carried into ShowProcessing *)

Lemma lookup_snoc {A} (l : list A) (x : A) : (l ++ [x]) !! length l = Some x.
Proof. by rewrite lookup_app_r, Nat.sub_diag by lia. Qed.

Lemma insert_snoc {A} (l : list A) (x y : A) :
  <[length l := y]> (l ++ [x]) = l ++ [y].
Proof. by rewrite insert_app_r_alt, Nat.sub_diag by lia. Qed.

(** C6 (as amended).  In the hotkey-up handler [streamer.stop()] runs first
    and reads nothing; the last preview is read afterwards, when the
    finalize task is built, from the state of that moment; and that value
    is the preview the task puts in its ShowProcessing command. *)
Theorem C6_preview_read_after_stop (v : variant) (s : state) (a : audio) :
  (hotkey s = HUp2 a ->
     step v s EHotkey = Some (with_hotkey (StreamingTranscriber.stop s) (HUp3 a)))
  /\ (hotkey s = HUp3 a ->
        exists s',
          run v [EHotkey; EThread (length (threads s))] s = Some s'
          /\ history s'
             = history s
               ++ [(Worker (length (threads s)),
                    Put (ShowProcessing (StreamingTranscriber.last_preview v s)))]
          /\ threads s' = threads s ++ [TFinish (F2 a)]).
Proof.
  split.
  - intros Hk. simpl. unfold hotkey_step. by rewrite Hk.
  - intros Hk.
    destruct s as [rec act lt sm en ic h hk th]; simpl in Hk; subst.
    cbn [run step hotkey_step hotkey threads with_threads with_hotkey].
    unfold thread_step. cbn [threads with_hotkey with_threads].
    rewrite lookup_snoc. cbn. rewrite insert_snoc.
    eexists. split; [reflexivity|]. done.
Qed.

Lemma C6_witness :
  step Tools (with_hotkey (init Tools) (HUp2 [])) EHotkey
  = Some (with_hotkey (StreamingTranscriber.stop (with_hotkey (init Tools) (HUp2 [])))
                      (HUp3 []))
  /\ exists s',
       run Tools [EHotkey; EThread 0] (with_hotkey (init Tools) (HUp3 [])) = Some s'
       /\ history s' = [(Worker 0, Put (ShowProcessing []))]
       /\ threads s' = [TFinish (F2 [])].
Proof.
  split.
  - apply (C6_preview_read_after_stop Tools (with_hotkey (init Tools) (HUp2 [])) []).
    reflexivity.
  - apply (C6_preview_read_after_stop Tools (with_hotkey (init Tools) (HUp3 [])) []).
    reflexivity.
Defined.

(** C6, the claim as stated, fails: the preview loop stores "hi" between
    [streamer.stop()] and the construction of the finalize task, and the
    task carries "hi", not the preview [stop()] was called with. *)
Lemma race_carries_hi (v : variant) :
  hotkey (race_state v) = HUp2 (silence 12800)
  /\ StreamingTranscriber.last_preview v (race_state v) = []
  /\ match race_result v with
     | Some s' => last (threads s')
     | None => None
     end = Some (TFinish (F1 (silence 12800) text_hi)).
Proof. destruct v; (split; [|split]); vm_compute; reflexivity. Qed.

Lemma C6_read_follows_stop :
  ~ preview_read_before_stop Tools /\ ~ preview_read_before_stop Legacy.
Proof.
  assert (forall v, ~ preview_read_before_stop v) as H; [|by split].
  intros v H.
  destruct (race_carries_hi v) as (Hk & Hp & Hlast).
  unfold race_result in Hlast.
  destruct (run v [EHotkey; EThread 0; EHotkey] (race_state v)) as [s'|] eqn:Hrun;
    [|discriminate].
  pose proof (H _ _ _ s' Hk Hrun) as Hclaim.
  rewrite Hclaim, Hp in Hlast.
  apply (f_equal (fun o => match o with
                           | Some (TFinish (F1 _ p)) => p
                           | _ => []
                           end)) in Hlast.
  cbv beta iota in Hlast. discriminate.
Qed.

(** ** The preview loop while its model loads *)

Lemma loop_step_at (v : variant) (tid : nat) (pc pc' : loop_pc) (s s1 : state) :
  threads s !! tid = Some (TLoop pc) ->
  StreamingTranscriber._loop v tid pc s = Some (pc', s1) ->
  step v s (EThread tid) = Some (with_threads s1 (<[tid := TLoop pc']> (threads s1))).
Proof. intros Hl Hs. simpl. unfold thread_step. by rewrite Hl, Hs. Qed.










(** ** The liveness flag is shared by the loops of all sessions *)



(** ** [strip] *)









(** ** The finalize task *)















(** ** A session with little audio *)



























